(** * Role-based access control of legal-doc-studio-demo

    Shallow embedding of [src/lib/auth/permissions.ts] (the permission
    statement and the six role objects) and of [lib/auth/roles.ts]
    (role names, [RoleHierarchy], [hasMinimumRole]), followed by the
    registry and evaluator contracts of the specification.

    JavaScript object literals used as dictionaries are finite maps with
    string keys; arrays of action names are lists of strings; numbers
    returned by [Array.prototype.indexOf] are integers. *)

From stdpp Require Import gmap strings list fin_maps.
From Stdlib Require Import ZArith Lia.

Local Open Scope string_scope.
Local Open Scope Z_scope.

(** An object literal [{ resource: [action, ...], ... }]. *)
Abbreviation Grants := (gmap string (list string)).

(** * lib/auth/permissions.ts *)

Module Permissions.

(** [const statement = { ... } as const], kept as the entry list and as
    the object it denotes. *)
Definition statement_entries : list (string * list string) :=
  [ ("organization", ["update"; "delete"]);
    ("member", ["create"; "read"; "update"; "delete"]);
    ("invitation", ["create"; "cancel"]);
    ("matter", ["create"; "read"; "update"; "delete"; "assign"]);
    ("document", ["create"; "read"; "update"; "delete"; "share"]);
    ("billing", ["read"; "create"; "approve"]) ].

Definition statement : Grants := list_to_map statement_entries.

(** The object literals handed to [ac.newRole]; the role object keeps the
    literal as its statements. *)
Definition owner : Grants :=
  list_to_map [
    ("organization", ["update"; "delete"]);
    ("member", ["create"; "read"; "update"; "delete"]);
    ("invitation", ["create"; "cancel"]);
    ("matter", ["create"; "read"; "update"; "delete"; "assign"]);
    ("document", ["create"; "read"; "update"; "delete"; "share"]);
    ("billing", ["read"; "create"; "approve"])
  ].

Definition partner : Grants :=
  list_to_map [
    ("member", ["create"; "read"; "update"; "delete"]);
    ("invitation", ["create"; "cancel"]);
    ("matter", ["create"; "read"; "update"; "delete"; "assign"]);
    ("document", ["create"; "read"; "update"; "delete"; "share"]);
    ("billing", ["read"; "create"; "approve"])
  ].

Definition associate : Grants :=
  list_to_map [
    ("member", ["read"]);
    ("matter", ["read"; "update"]);
    ("document", ["create"; "read"; "update"; "delete"]);
    ("billing", ["read"])
  ].

Definition paralegal : Grants :=
  list_to_map [
    ("member", ["read"]);
    ("matter", ["read"]);
    ("document", ["create"; "read"; "update"]);
    ("billing", ["read"])
  ].

Definition staff : Grants :=
  list_to_map [
    ("member", ["read"]);
    ("matter", ["read"]);
    ("document", ["read"]);
    ("billing", ["read"; "create"])
  ].

Definition client : Grants :=
  list_to_map [
    ("matter", ["read"]);
    ("document", ["read"])
  ].

(** [export const roles = { owner, partner, associate, paralegal, staff,
    client }], kept as the entry list (insertion order) and as the
    object it denotes. *)
Definition roles_entries : list (string * Grants) :=
  [ ("owner", owner); ("partner", partner); ("associate", associate);
    ("paralegal", paralegal); ("staff", staff); ("client", client) ].

Definition roles : gmap string Grants := list_to_map roles_entries.

End Permissions.

(** [role[rk] ?? []]: the actions a role object lists for a resource
    kind, none for an absent key. *)
Definition grantList (role : Grants) (rk : string) : list string :=
  default [] (role !! rk).

(** * lib/auth/roles.ts *)

Module Roles.

(** [LegalRoles]: constant name to role string. *)
Definition LegalRoles : list (string * string) :=
  [ ("OWNER", "owner"); ("PARTNER", "partner"); ("ASSOCIATE", "associate");
    ("PARALEGAL", "paralegal"); ("STAFF", "staff"); ("CLIENT", "client") ].

(** [RoleHierarchy]: higher index = more permissions. *)
Definition RoleHierarchy : list string :=
  [ "client"; "staff"; "paralegal"; "associate"; "partner"; "owner" ].

(** [Array.prototype.indexOf]: position of the first element strictly
    equal to [x], or [-1]. *)
Fixpoint indexOf_from (l : list string) (x : string) (i : Z) : Z :=
  match l with
  | [] => -1
  | y :: l' => if String.eqb y x then i else indexOf_from l' x (i + 1)
  end.

Definition indexOf (l : list string) (x : string) : Z := indexOf_from l x 0.

(** [hasMinimumRole(userRole, requiredRole)] *)
Definition hasMinimumRole (userRole requiredRole : string) : bool :=
  let userLevel := indexOf RoleHierarchy userRole in
  let requiredLevel := indexOf RoleHierarchy requiredRole in
  userLevel >=? requiredLevel.

End Roles.

(** * Registry and evaluator contracts *)

(** The repository hands [statement] and the role literals to the access
    control plugin of its authentication library and contains no
    function of its own that checks a permission.  The contracts below
    are the specification's (sections 4.1 to 4.4), over the objects of
    [Permissions]. *)

Module Contracts.

(** Modelled from the spec: the configuration and integrity faults of
    section 7, hard errors; the repository declares no error type. *)
Inductive Fault : Type :=
  | DuplicateResourceKind
  | UnknownResourceKind
  | InvalidAction
  | DuplicateRoleName
  | UnknownRole
  | MissingScopePredicate.

(** Modelled from the spec: the reason codes and the [Decision] of
    section 4.4, absent from the repository. *)
Inductive ReasonCode : Type :=
  | Granted
  | InsufficientRolePermission
  | OutOfScope.

Record Decision : Type := mkDecision { allow : bool; reason : ReasonCode }.

Definition granted : Decision := mkDecision true Granted.
Definition deny (why : ReasonCode) : Decision := mkDecision false why.

(** Modelled from the spec: the principal record of section 6, supplied
    by the session system. *)
Record Principal : Type :=
  mkPrincipal { id : string; roleName : string; tenantId : string }.

(** Modelled from the spec: the process-wide state of sections 3 and 5,
    that is the permission catalog, the role registry, and the store [W]
    of the external data layer that scope predicates read. *)
Record State (W : Type) : Type :=
  mkState { catalog : Grants; registry : gmap string Grants; store : W }.
Arguments mkState {W} _ _ _.
Arguments catalog {W} _.
Arguments registry {W} _.
Arguments store {W} _.

(** Computations that read or update the state and either return a value
    or stop with a fault; a fault is handed on, never turned into a value. *)
Definition M (W A : Type) : Type := State W → (Fault + A) * State W.

Definition ret {W A} (a : A) : M W A := λ s, (inr a, s).
Definition fail {W A} (e : Fault) : M W A := λ s, (inl e, s).
Definition bind {W A B} (m : M W A) (k : A → M W B) : M W B :=
  λ s, match m s with
       | (inl e, s') => (inl e, s')
       | (inr a, s') => k a s'
       end.

Notation "'let*' x ':=' m 'in' k" := (bind m (λ x, k))
  (at level 10, x name, m at level 100, k at level 200).

Section Operations.
Context {T W : Type}.






(** Modelled from the spec: [getRole(name)] of section 4.2. *)
Definition getRole (name : string) : M W Grants :=
  λ s, match registry s !! name with
       | Some role => (inr role, s)
       | None => (inl UnknownRole, s)
       end.

(** Modelled from the spec: [hasPermission(role, resourceKind, action)]
    of section 4.2, the repository has no function of this name: true
    iff the action is in [role[resourceKind]], false for an absent
    key. *)
Definition hasPermission (role : Grants) (rk a : string) : bool :=
  match role !! rk with
  | Some actions => bool_decide (a ∈ actions)
  | None => false
  end.

(** Modelled from the spec: the scope-restricted resource kinds of the
    reference policy (section 4.4, step 3); the sources only carry the
    comments "enforced at query level". *)
Definition scopeRestricted : gset string := {[ "matter"; "document" ]}.

(** Modelled from the spec: the caller-supplied scope predicate of
    section 3, a lookup in the external store, which it may change. *)
Definition ScopePredicate : Type := Principal → T → W → bool * W.

Definition callScope (p : ScopePredicate) (pr : Principal) (t : T) : M W bool :=
  λ s, let (b, w') := p pr t (store s) in
       (inr b, mkState (catalog s) (registry s) w').

(** Modelled from the spec: [authorize(principal, resourceKind, action,
    target?, scopePredicate?)], steps 1 to 5 of section 4.4; the
    repository contains no evaluator. *)
Definition authorize (pr : Principal) (rk a : string)
    (target : option T) (scopePredicate : option ScopePredicate) : M W Decision :=
  let* role := getRole (roleName pr) in
  if negb (hasPermission role rk a) then ret (deny InsufficientRolePermission)
  else if bool_decide (rk ∈ scopeRestricted) then
    match target with
    | Some t =>
        match scopePredicate with
        | None => fail MissingScopePredicate
        | Some p =>
            let* inScope := callScope p pr t in
            if inScope then ret granted else ret (deny OutOfScope)
        end
    | None => ret granted
    end
  else ret granted.

(** A scope predicate is idempotent when asking again, in the store the
    first call left, gives the same answer and leaves that store. *)
Definition idempotent (p : ScopePredicate) : Prop :=
  ∀ pr t w, p pr t (snd (p pr t w)) = p pr t w.

(** The state once the module [permissions.ts] is loaded. *)
Definition loaded (w : W) : State W :=
  mkState Permissions.statement Permissions.roles w.




End Operations.

(** An example data layer for scope predicates: the store is the set of
    (principal id, matter id) assignments. *)
Module Assignments.

(** "Is this matter assigned to this principal": a read-only lookup. *)
Definition assigned : Principal → string → gset (string * string)
                      → bool * gset (string * string) :=
  λ pr t w, (bool_decide ((id pr, t) ∈ w), w).

(** A one-time grant, used up by the first lookup: not idempotent. *)
Definition oneTime : Principal → string → gset (string * string)
                     → bool * gset (string * string) :=
  λ pr t w, (bool_decide ((id pr, t) ∈ w), w ∖ {[ (id pr, t) ]}).

End Assignments.

End Contracts.

(** * The reference policy table of the specification (section 4.2) *)

Module Reference.

Definition columns : list string :=
  [ "organization"; "member"; "invitation"; "matter"; "document"; "billing" ].

(** One row per role; a dash in the table is the empty list. *)
Definition table : list (string * list (list string)) :=
  [ ("owner",
      [ ["update"; "delete"];
        ["create"; "read"; "update"; "delete"];
        ["create"; "cancel"];
        ["create"; "read"; "update"; "delete"; "assign"];
        ["create"; "read"; "update"; "delete"; "share"];
        ["read"; "create"; "approve"] ]);
    ("partner",
      [ [];
        ["create"; "read"; "update"; "delete"];
        ["create"; "cancel"];
        ["create"; "read"; "update"; "delete"; "assign"];
        ["create"; "read"; "update"; "delete"; "share"];
        ["read"; "create"; "approve"] ]);
    ("associate",
      [ []; ["read"]; []; ["read"; "update"];
        ["create"; "read"; "update"; "delete"]; ["read"] ]);
    ("paralegal",
      [ []; ["read"]; []; ["read"]; ["create"; "read"; "update"]; ["read"] ]);
    ("staff",
      [ []; ["read"]; []; ["read"]; ["read"]; ["read"; "create"] ]);
    ("client",
      [ []; []; []; ["read"]; ["read"]; [] ]) ].

Fixpoint assoc {A : Type} (k : string) (l : list (string * A)) : option A :=
  match l with
  | [] => None
  | (k', v) :: l' => if String.eqb k' k then Some v else assoc k l'
  end.

(** The cell of the table at a role's row and a resource kind's column. *)
Definition cell (role rk : string) : list string :=
  match assoc role table with
  | Some row => default [] (assoc rk (zip columns row))
  | None => []
  end.

End Reference.

(** * JavaScript operators used by the components *)

Module Js.

(** [x || d] where [x] is a string or undefined: undefined and the empty
    string are falsy and give [d]. *)
Definition orElse (x : option string) (d : string) : string :=
  match x with
  | Some s => if String.eqb s "" then d else s
  | None => d
  end.

(** Truthiness of a value that is a string or null. *)
Definition truthy (x : option string) : bool :=
  match x with
  | Some s => negb (String.eqb s "")
  | None => false
  end.

End Js.

(** A JavaScript string whose length or characters the code looks at: the
    sequence of its UTF-16 code units (numbers below 65536).  [s.length]
    is the number of units and [===] compares the sequences, so
    ["pässwör"] has length 7 whatever its length in bytes. *)
Abbreviation CodeUnits := (list N).

(** * lib/auth/client.ts *)

Module Client.

(** The part of [window] the option reads; [typeof window] is
    ["undefined"] on the server. *)
Record Window : Type := mkWindow { origin : string }.

(** The [baseURL] option handed to [createAuthClient]. *)
Definition baseURL (window : option Window) (NEXT_PUBLIC_APP_URL : option string)
    : string :=
  match window with
  | Some w => origin w
  | None => Js.orElse NEXT_PUBLIC_APP_URL "http://localhost:3000"
  end.

End Client.

(** * components/auth/login-form.tsx *)

Module LoginForm.

(** The component state held by the four [useState] hooks. *)
Record State : Type :=
  mkState { email : string; password : string;
            error : option string; loading : bool }.

(** What awaiting [authClient.signIn.email] gives: the promise is
    rejected, or it resolves to [{ data, error }]; of [data] the handler
    reads the property [twoFactorRedirect] (absent, or a boolean), of
    [error] the optional [message]. *)
Record AuthError : Type := mkAuthError { message : option string }.
Record SignInData : Type := mkSignInData { twoFactorRedirect : option bool }.

Inductive Response : Type :=
  | Rejected
  | Resolved (data : option SignInData) (authError : option AuthError).

(** The calls [handleSubmit] makes, in order. *)
Inductive Effect : Type :=
  | PreventDefault
  | SetError (e : option string)
  | SetLoading (b : bool)
  | SignInEmail (email password : string)
  | RouterPush (url : string).

(** [data && "twoFactorRedirect" in data && data.twoFactorRedirect] *)
Definition twoFactorRequired (data : option SignInData) : bool :=
  match data with
  | Some d => default false (twoFactorRedirect d)
  | None => false
  end.

(** [handleSubmit] up to the [await]. *)
Definition beforeAwait (st : State) : list Effect :=
  [ PreventDefault; SetError None; SetLoading true;
    SignInEmail (email st) (password st) ].

(** [handleSubmit] from the [await] on, the [catch] block included. *)
Definition afterAwait (callbackUrl : string) (response : Response) : list Effect :=
  match response with
  | Resolved data (Some authError) =>
      [ SetError (Some (Js.orElse (message authError) "Failed to sign in"));
        SetLoading false ]
  | Resolved data None =>
      if twoFactorRequired data then [ RouterPush "/verify-2fa" ]
      else [ RouterPush callbackUrl ]
  | Rejected =>
      [ SetError (Some "An unexpected error occurred"); SetLoading false ]
  end.

Definition handleSubmit (callbackUrl : string) (st : State) (response : Response)
    : list Effect :=
  (beforeAwait st ++ afterAwait callbackUrl response)%list.

(** The state setters applied in order. *)
Definition update (st : State) (e : Effect) : State :=
  match e with
  | SetError x => mkState (email st) (password st) x (loading st)
  | SetLoading b => mkState (email st) (password st) (error st) b
  | _ => st
  end.

Definition run (st : State) (effects : list Effect) : State :=
  foldl update st effects.

Definition pushes (effects : list Effect) : list string :=
  omap (λ e, match e with RouterPush url => Some url | _ => None end) effects.

Definition signIns (effects : list Effect) : list (string * string) :=
  omap (λ e, match e with SignInEmail m p => Some (m, p) | _ => None end) effects.

(** What the returned form shows of the state: the alert paragraph
    ([error && ...]), the [disabled] attribute of the inputs and of the
    button, and the button label. *)
Record View : Type :=
  mkView { alert : option string; disabled : bool; label : string }.

Definition render (st : State) : View :=
  mkView (if Js.truthy (error st) then error st else None)
         (loading st)
         (if loading st then "Signing in..." else "Sign In").

End LoginForm.

(** * components/auth/signup-form.tsx *)

Module SignupForm.

(** The six [useState] hooks; the four text fields hold what the user
    typed. *)
Record State : Type :=
  mkState { name : CodeUnits; email : CodeUnits; password : CodeUnits;
            confirmPassword : CodeUnits;
            error : option string; loading : bool }.

Record AuthError : Type := mkAuthError { message : option string }.

(** What awaiting [authClient.signUp.email] gives; the handler does not
    read [data]. *)
Inductive Response : Type :=
  | Rejected
  | Resolved (authError : option AuthError).

Inductive Effect : Type :=
  | PreventDefault
  | SetError (e : option string)
  | SetLoading (b : bool)
  | SignUpEmail (email password name : CodeUnits)
  | RouterPush (url : string).

Definition afterAwait (callbackUrl : string) (response : Response) : list Effect :=
  match response with
  | Resolved (Some authError) =>
      [ SetError (Some (Js.orElse (message authError) "Failed to create account"));
        SetLoading false ]
  | Resolved None => [ RouterPush callbackUrl ]
  | Rejected =>
      [ SetError (Some "An unexpected error occurred"); SetLoading false ]
  end.

(** [handleSubmit]: the two validations return early, before
    [setLoading(true)] and before the request.  [password !==
    confirmPassword] compares the code units and [password.length]
    counts them. *)
Definition handleSubmit (callbackUrl : string) (st : State) (response : Response)
    : list Effect :=
  ([ PreventDefault; SetError None ] ++
   if negb (bool_decide (password st = confirmPassword st)) then
     [ SetError (Some "Passwords do not match") ]
   else if Nat.ltb (length (password st)) 8 then
     [ SetError (Some "Password must be at least 8 characters") ]
   else
     [ SetLoading true; SignUpEmail (email st) (password st) (name st) ]
     ++ afterAwait callbackUrl response)%list.

Definition update (st : State) (e : Effect) : State :=
  match e with
  | SetError x =>
      mkState (name st) (email st) (password st) (confirmPassword st) x (loading st)
  | SetLoading b =>
      mkState (name st) (email st) (password st) (confirmPassword st) (error st) b
  | _ => st
  end.

Definition run (st : State) (effects : list Effect) : State :=
  foldl update st effects.

Definition pushes (effects : list Effect) : list string :=
  omap (λ e, match e with RouterPush url => Some url | _ => None end) effects.

Definition signUps (effects : list Effect)
    : list (CodeUnits * CodeUnits * CodeUnits) :=
  omap (λ e, match e with SignUpEmail m p n => Some (m, p, n) | _ => None end)
       effects.

End SignupForm.

(** * Code samples of the skill document (skills/auth/SKILL.md) *)

(** [middleware.ts] as the document gives it. *)
Module Middleware.

Definition publicRoutes : list string :=
  [ "/"; "/login"; "/signup"; "/api/auth" ].

(** [publicRoutes.some((route) => pathname === route ||
    pathname.startsWith(`${route}/`))] *)
Definition isPublicRoute (pathname : string) : bool :=
  existsb
    (λ route, String.eqb pathname route
              || String.prefix (String.append route "/") pathname)
    publicRoutes.

(** What the function reads of the request: the path, the full URL, and
    the cookie jar ([cookies.get] is a lookup by name). *)
Record Request : Type :=
  mkRequest { pathname : string; url : string; cookies : gmap string string }.

(** [new URL(path, base)] with the search parameters set on it. *)
Record URL : Type :=
  mkURL { path : string; base : string; searchParams : list (string * string) }.

Inductive NextResponse : Type :=
  | Next
  | Redirect (to : URL).

Definition middleware (request : Request) : NextResponse :=
  if isPublicRoute (pathname request) then Next
  else
    match cookies request !! "better-auth.session_token" with
    | None =>
        Redirect (mkURL "/login" (url request)
                    [("callbackUrl", pathname request)])
    | Some sessionCookie => Next
    end.

End Middleware.

(** [lib/vault/with-auth.ts] as the document gives it. *)
Module Vault.

Record Session : Type :=
  mkSession { userId : string; activeOrganizationId : option string }.

Record Member : Type := mkMember { role : string }.

Record Context : Type :=
  mkContext { ctxUserId : string; organizationId : option string;
              ctxRole : string }.

(** [getAuthenticatedVaultContext()]: [session] is what
    [auth.api.getSession] resolves to, [activeMember] what
    [auth.api.getActiveMember] would resolve to; the latter is asked only
    when the session has a truthy active organization.  A thrown
    [Error] is its message on the left. *)
Definition getAuthenticatedVaultContext (session : option Session)
    (activeMember : option Member) : string + Context :=
  match session with
  | None => inl "Not authenticated"
  | Some s =>
      let activeOrg := activeOrganizationId s in
      let member := if Js.truthy activeOrg then activeMember else None in
      inr (mkContext (userId s) activeOrg
             (Js.orElse (role <$> member) "member"))
  end.

End Vault.

(** * Facts about [indexOf] and the hierarchy *)

Section IndexOf.
Import Roles.

Lemma indexOf_from_notin (l : list string) (x : string) (i : Z) :
  x ∉ l → indexOf_from l x i = -1.
Proof.
  revert i. induction l as [|y l IH]; intros i Hx; [done|].
  apply not_elem_of_cons in Hx as [Hne Hx]. simpl.
  destruct (String.eqb_spec y x) as [->|_]; [done|]. by apply IH.
Qed.

Lemma indexOf_from_in (l : list string) (x : string) (i : Z) :
  x ∈ l → i <= indexOf_from l x i < i + Z.of_nat (length l).
Proof.
  revert i. induction l as [|y l IH]; intros i Hx.
  - by apply elem_of_nil in Hx.
  - simpl. destruct (String.eqb_spec y x) as [->|Hne]; [lia|].
    apply elem_of_cons in Hx as [->|Hx]; [done|].
    specialize (IH (i + 1) Hx). lia.
Qed.

Lemma indexOf_notin (l : list string) (x : string) :
  x ∉ l → indexOf l x = -1.
Proof. apply indexOf_from_notin. Qed.

Lemma indexOf_in (l : list string) (x : string) :
  x ∈ l → 0 <= indexOf l x < Z.of_nat (length l).
Proof. intros Hx. apply (indexOf_from_in l x 0 Hx). Qed.

Lemma indexOf_lower (l : list string) (x : string) : -1 <= indexOf l x.
Proof.
  destruct (decide (x ∈ l)) as [Hx|Hx].
  - pose proof (indexOf_in l x Hx). lia.
  - rewrite indexOf_notin by done. lia.
Qed.

Lemma hasMinimumRole_spec (a b : string) :
  hasMinimumRole a b = true ↔
  indexOf RoleHierarchy a >= indexOf RoleHierarchy b.
Proof. unfold hasMinimumRole. cbv zeta. rewrite Z.geb_le. lia. Qed.

End IndexOf.

(** C5. The hierarchy is the order client, staff, paralegal, associate,
    partner, owner; the rank of a role is its position in that order;
    [hasMinimumRole a b] (the spec's [atLeast]) is true exactly when the
    rank of [a] is at least the rank of [b]; owner is at least client and
    client is not at least owner. *)
Theorem hierarchy_rank_atLeast :
  Roles.RoleHierarchy
    = ["client"; "staff"; "paralegal"; "associate"; "partner"; "owner"]
  ∧ (∀ (i : nat) (role : string),
        Roles.RoleHierarchy !! i = Some role →
        Roles.indexOf Roles.RoleHierarchy role = Z.of_nat i)
  ∧ (∀ a b : string,
        Roles.hasMinimumRole a b = true ↔
        Roles.indexOf Roles.RoleHierarchy a >= Roles.indexOf Roles.RoleHierarchy b)
  ∧ Roles.hasMinimumRole "owner" "client" = true
  ∧ Roles.hasMinimumRole "client" "owner" = false.
Proof.
  split; [reflexivity|]. split; [|split; [|split; reflexivity]].
  - intros i role Hi.
    do 6 (destruct i as [|i]; [injection Hi as <-; reflexivity|]).
    discriminate Hi.
  - apply hasMinimumRole_spec.
Qed.

Lemma hierarchy_rank_atLeast_witness :
  Roles.indexOf Roles.RoleHierarchy "paralegal" = 2.
Proof.
  refine (proj1 (proj2 hierarchy_rank_atLeast) 2%nat "paralegal" _).
  reflexivity.
Defined.

(** C9. A required role that is not in [RoleHierarchy] has index -1, so
    every role of the hierarchy passes the check against it; an unknown
    user role never passes the check against a role of the hierarchy. *)
Theorem hasMinimumRole_unknown_role (known unknown : string) :
  known ∈ Roles.RoleHierarchy →
  unknown ∉ Roles.RoleHierarchy →
  Roles.indexOf Roles.RoleHierarchy unknown = -1
  ∧ Roles.hasMinimumRole known unknown = true
  ∧ Roles.hasMinimumRole unknown known = false.
Proof.
  intros Hk Hu.
  pose proof (indexOf_notin _ _ Hu) as Hneg.
  pose proof (indexOf_in _ _ Hk) as Hpos.
  unfold Roles.hasMinimumRole. cbv zeta. rewrite Hneg.
  split; [done|]. split.
  - apply Z.geb_le. lia.
  - rewrite Z.geb_leb. apply Z.leb_gt. lia.
Qed.

Lemma hasMinimumRole_unknown_role_witness :
  Roles.indexOf Roles.RoleHierarchy "admin" = -1
  ∧ Roles.hasMinimumRole "staff" "admin" = true
  ∧ Roles.hasMinimumRole "admin" "staff" = false.
Proof.
  apply (hasMinimumRole_unknown_role "staff" "admin").
  - apply (bool_decide_unpack _). vm_compute. exact I.
  - apply (bool_decide_unpack _). vm_compute. exact I.
Defined.

(** * The role table *)

Section RoleTable.
Import Permissions Contracts.

Lemma hasPermission_grantList (role : Grants) (rk a : string) :
  hasPermission role rk a = true ↔ a ∈ grantList role rk.
Proof.
  unfold hasPermission, grantList. destruct (role !! rk) as [acts|]; simpl.
  - apply bool_decide_eq_true.
  - split; [discriminate|]. intros H. by apply elem_of_nil in H.
Qed.

Lemma hasPermission_lookup (role : Grants) (rk a : string) :
  hasPermission role rk a = true ↔ ∃ acts, role !! rk = Some acts ∧ a ∈ acts.
Proof.
  unfold hasPermission. destruct (role !! rk) as [acts|].
  - rewrite bool_decide_eq_true. split; [eauto|]. by intros (? & [= <-] & ?).
  - split; [discriminate|]. by intros (? & [=] & ?).
Qed.

Lemma roles_lookup (name : string) (role : Grants) :
  roles !! name = Some role ↔ (name, role) ∈ roles_entries.
Proof.
  symmetry. apply elem_of_list_to_map.
  apply (bool_decide_unpack _). vm_compute. exact I.
Qed.

End RoleTable.

Ltac each_member H :=
  repeat (apply elem_of_cons in H as [->|H]); [..|by apply elem_of_nil in H].

(** C1. For each of the six roles, each of the six resource kinds and
    every action, [hasPermission] on the role object exported by
    [permissions.ts] is true exactly when the action is in the role's
    cell of the reference table of section 4.2. *)
Theorem hasPermission_reference_table (name rk a : string) :
  name ∈ ["owner"; "partner"; "associate"; "paralegal"; "staff"; "client"] →
  rk ∈ ["organization"; "member"; "invitation"; "matter"; "document"; "billing"] →
  ∃ role : Grants,
    Permissions.roles !! name = Some role
    ∧ (Contracts.hasPermission role rk a = true ↔ a ∈ Reference.cell name rk).
Proof.
  intros Hn Hk.
  assert (∃ role : Grants, Permissions.roles !! name = Some role
            ∧ grantList role rk = Reference.cell name rk)
    as (role & Hr & Hg).
  { each_member Hn; each_member Hk;
      eexists; (split; [reflexivity|]); vm_compute; reflexivity. }
  exists role. split; [exact Hr|].
  rewrite <- Hg. apply hasPermission_grantList.
Qed.

Lemma hasPermission_reference_table_witness :
  ∃ role : Grants,
    Permissions.roles !! "staff" = Some role
    ∧ (Contracts.hasPermission role "billing" "create" = true
       ↔ "create" ∈ Reference.cell "staff" "billing").
Proof.
  apply (hasPermission_reference_table "staff" "billing" "create").
  - apply (bool_decide_unpack _). vm_compute. exact I.
  - apply (bool_decide_unpack _). vm_compute. exact I.
Defined.

(** C6. Paralegal ranks strictly above staff in [RoleHierarchy], yet staff
    holds the billing grant [create] and paralegal does not; the
    hierarchy check still puts paralegal above staff. *)
Theorem hierarchy_disagrees_with_grants :
  Roles.indexOf Roles.RoleHierarchy "staff"
    < Roles.indexOf Roles.RoleHierarchy "paralegal"
  ∧ Roles.hasMinimumRole "paralegal" "staff" = true
  ∧ Roles.hasMinimumRole "staff" "paralegal" = false
  ∧ Permissions.roles !! "staff" = Some Permissions.staff
  ∧ Permissions.roles !! "paralegal" = Some Permissions.paralegal
  ∧ Contracts.hasPermission Permissions.staff "billing" "create" = true
  ∧ Contracts.hasPermission Permissions.paralegal "billing" "create" = false.
Proof. repeat split; reflexivity. Qed.

(** C10. Whatever a role of the exported [roles] record grants, the owner
    role grants too. *)
Theorem owner_grants_superset (name : string) (role : Grants)
    (rk : string) (acts : list string) (a : string) :
  Permissions.roles !! name = Some role →
  role !! rk = Some acts →
  a ∈ acts →
  ∃ acts', Permissions.owner !! rk = Some acts' ∧ a ∈ acts'.
Proof.
  intros Hrole Hrk Ha.
  apply hasPermission_lookup.
  assert (map_Forall (λ _ r,
            map_Forall (λ k l,
              Forall (λ x, Contracts.hasPermission Permissions.owner k x = true) l) r)
            Permissions.roles) as Hall.
  { apply (bool_decide_unpack _). vm_compute. exact I. }
  specialize (Hall name role Hrole rk acts Hrk).
  rewrite Forall_forall in Hall. by apply Hall.
Qed.

Lemma owner_grants_superset_witness :
  ∃ acts', Permissions.owner !! "billing" = Some acts' ∧ "create" ∈ acts'.
Proof.
  apply (owner_grants_superset "staff" Permissions.staff "billing"
           ["read"; "create"] "create").
  - reflexivity.
  - reflexivity.
  - apply (bool_decide_unpack _). vm_compute. exact I.
Defined.

(** * The evaluator *)

Section Evaluator.
Import Permissions Contracts.
Context {T W : Type}.
Implicit Types (s : State W) (pr : Principal) (role : Grants)
  (rk a : string) (tgt : option T) (sp : option (@ScopePredicate T W)).

Lemma authorize_unknown_role s pr rk a tgt sp :
  registry s !! roleName pr = None →
  authorize pr rk a tgt sp s = (inl UnknownRole, s).
Proof. intros H. unfold authorize, bind, getRole. by rewrite H. Qed.

(** Steps 2 to 5 once the role is resolved. *)
Lemma authorize_run s pr role rk a tgt sp :
  registry s !! roleName pr = Some role →
  authorize pr rk a tgt sp s =
    if hasPermission role rk a then
      if bool_decide (rk ∈ scopeRestricted) then
        match tgt, sp with
        | Some t, None => (inl MissingScopePredicate, s)
        | Some t, Some p =>
            (inr (if fst (p pr t (store s)) then granted else deny OutOfScope),
             mkState (catalog s) (registry s) (snd (p pr t (store s))))
        | None, _ => (inr granted, s)
        end
      else (inr granted, s)
    else (inr (deny InsufficientRolePermission), s).
Proof.
  intros H. unfold authorize, bind, getRole. rewrite H.
  destruct (hasPermission role rk a); cbn [negb]; [|reflexivity].
  destruct (bool_decide (rk ∈ scopeRestricted)); [|reflexivity].
  destruct tgt as [t|]; [|reflexivity]. destruct sp as [p|]; [|reflexivity].
  unfold callScope, ret. destruct (p pr t (store s)) as [[] w']; reflexivity.
Qed.

Lemma authorize_frame s pr rk a tgt sp :
  catalog (snd (authorize pr rk a tgt sp s)) = catalog s
  ∧ registry (snd (authorize pr rk a tgt sp s)) = registry s.
Proof.
  destruct (registry s !! roleName pr) as [role|] eqn:H.
  - rewrite (authorize_run _ _ _ _ _ _ _ H).
    destruct (hasPermission role rk a), (bool_decide (rk ∈ scopeRestricted)),
      tgt as [t|], sp as [p|]; split; reflexivity.
  - rewrite authorize_unknown_role by exact H. split; reflexivity.
Qed.

Lemma scopeRestricted_kinds rk :
  rk ∈ scopeRestricted ↔ rk = "matter" ∨ rk = "document".
Proof. unfold scopeRestricted. set_solver. Qed.

Lemma scopeRestricted_true rk :
  rk = "matter" ∨ rk = "document" → bool_decide (rk ∈ scopeRestricted) = true.
Proof. intros H. apply bool_decide_eq_true_2. by apply scopeRestricted_kinds. Qed.

Lemma loaded_role (w : W) pr (name : string) role :
  roleName pr = name → roles !! name = Some role →
  registry (loaded w) !! roleName pr = Some role.
Proof. intros -> H. exact H. Qed.

End Evaluator.

(** C2. A principal whose role lacks the action on the resource kind gets
    the decision [{allow: false, reason: InsufficientRolePermission}],
    whatever target and scope predicate are supplied; so does a client
    asking to delete a document, the client's document grant being
    [read] alone. *)
Theorem authorize_insufficient_permission :
  (∀ (T W : Type) (s : Contracts.State W) (pr : Contracts.Principal)
     (role : Grants) (rk a : string) (tgt : option T)
     (sp : option (@Contracts.ScopePredicate T W)),
      Contracts.registry s !! Contracts.roleName pr = Some role →
      Contracts.hasPermission role rk a = false →
      Contracts.authorize pr rk a tgt sp s
      = (inr (Contracts.mkDecision false Contracts.InsufficientRolePermission), s))
  ∧ (∀ (T W : Type) (w : W) (pr : Contracts.Principal) (tgt : option T)
       (sp : option (@Contracts.ScopePredicate T W)),
      Contracts.roleName pr = "client" →
      Contracts.authorize pr "document" "delete" tgt sp (Contracts.loaded w)
      = (inr (Contracts.mkDecision false Contracts.InsufficientRolePermission),
         Contracts.loaded w))
  ∧ Permissions.client !! "document" = Some ["read"].
Proof.
  assert (∀ (T W : Type) (s : Contracts.State W) (pr : Contracts.Principal)
     (role : Grants) (rk a : string) (tgt : option T)
     (sp : option (@Contracts.ScopePredicate T W)),
      Contracts.registry s !! Contracts.roleName pr = Some role →
      Contracts.hasPermission role rk a = false →
      Contracts.authorize pr rk a tgt sp s
      = (inr (Contracts.mkDecision false Contracts.InsufficientRolePermission), s))
    as general.
  { intros T W s pr role rk a tgt sp Hrole Hperm.
    rewrite (authorize_run _ _ _ _ _ _ _ Hrole), Hperm. reflexivity. }
  split; [exact general|]. split; [|reflexivity].
  intros T W w pr tgt sp Hname.
  apply (general T W _ _ Permissions.client).
  - apply (loaded_role _ _ "client"); [exact Hname|reflexivity].
  - reflexivity.
Qed.

Lemma authorize_insufficient_permission_witness :
  Contracts.authorize (T := string) (W := gset (string * string))
    (Contracts.mkPrincipal "u3" "client" "firm-1") "document" "delete"
    (Some "doc-9") (Some Contracts.Assignments.assigned)
    (Contracts.loaded {[ ("u3", "doc-9") ]})
  = (inr (Contracts.mkDecision false Contracts.InsufficientRolePermission),
     Contracts.loaded {[ ("u3", "doc-9") ]}).
Proof.
  apply (proj1 authorize_insufficient_permission string (gset (string * string))
           _ _ Permissions.client).
  - reflexivity.
  - reflexivity.
Defined.

(** C3. On a scope-restricted kind (matter, document) with a target and a
    scope predicate [p], [authorize] returns a decision that allows
    exactly when the role's grant holds the action and [p] answers true;
    with the grant present and [p] answering false the decision is
    [{allow: false, reason: OutOfScope}]; with no target the decision is
    the grant-only result of step 2, whatever predicate is passed. *)
Theorem authorize_scope_restricted {T W : Type} (s : Contracts.State W)
    (pr : Contracts.Principal) (role : Grants) (rk a : string) (t : T)
    (p : @Contracts.ScopePredicate T W) :
  Contracts.registry s !! Contracts.roleName pr = Some role →
  rk = "matter" ∨ rk = "document" →
  (∃ d : Contracts.Decision,
      fst (Contracts.authorize pr rk a (Some t) (Some p) s) = inr d
      ∧ (Contracts.allow d = true ↔
         Contracts.hasPermission role rk a = true
         ∧ fst (p pr t (Contracts.store s)) = true)
      ∧ (Contracts.allow d = true → d = Contracts.granted)
      ∧ (Contracts.hasPermission role rk a = true →
         fst (p pr t (Contracts.store s)) = false →
         d = Contracts.mkDecision false Contracts.OutOfScope))
  ∧ (∀ sp : option (@Contracts.ScopePredicate T W),
      Contracts.authorize pr rk a None sp s
      = (inr (if Contracts.hasPermission role rk a then Contracts.granted
              else Contracts.mkDecision false Contracts.InsufficientRolePermission),
         s)).
Proof.
  intros Hrole Hrk. apply scopeRestricted_true in Hrk. split.
  - rewrite (authorize_run _ _ _ _ _ _ _ Hrole), Hrk.
    destruct (Contracts.hasPermission role rk a);
      [destruct (fst (p pr t (Contracts.store s)))|];
      eexists; (split; [reflexivity|]); cbn;
      repeat split; try discriminate; try tauto; intros []; discriminate.
  - intros sp. rewrite (authorize_run _ _ _ _ _ _ _ Hrole), Hrk.
    destruct (Contracts.hasPermission role rk a); reflexivity.
Qed.

Lemma authorize_scope_restricted_witness :
  (∃ d : Contracts.Decision,
      fst (Contracts.authorize (Contracts.mkPrincipal "u5" "associate" "firm-1")
             "matter" "read" (Some "m-2") (Some Contracts.Assignments.assigned)
             (Contracts.loaded {[ ("u5", "m-1") ]})) = inr d
      ∧ (Contracts.allow d = true ↔
         Contracts.hasPermission Permissions.associate "matter" "read" = true
         ∧ fst (Contracts.Assignments.assigned
                  (Contracts.mkPrincipal "u5" "associate" "firm-1") "m-2"
                  {[ ("u5", "m-1") ]}) = true)
      ∧ (Contracts.allow d = true → d = Contracts.granted)
      ∧ (Contracts.hasPermission Permissions.associate "matter" "read" = true →
         fst (Contracts.Assignments.assigned
                (Contracts.mkPrincipal "u5" "associate" "firm-1") "m-2"
                {[ ("u5", "m-1") ]}) = false →
         d = Contracts.mkDecision false Contracts.OutOfScope))
  ∧ (∀ sp : option (@Contracts.ScopePredicate string (gset (string * string))),
      Contracts.authorize (Contracts.mkPrincipal "u5" "associate" "firm-1")
        "matter" "read" None sp (Contracts.loaded {[ ("u5", "m-1") ]})
      = (inr (if Contracts.hasPermission Permissions.associate "matter" "read"
              then Contracts.granted
              else Contracts.mkDecision false Contracts.InsufficientRolePermission),
         Contracts.loaded {[ ("u5", "m-1") ]})).
Proof.
  refine (authorize_scope_restricted (Contracts.loaded {[ ("u5", "m-1") ]})
            (Contracts.mkPrincipal "u5" "associate" "firm-1")
            Permissions.associate "matter" "read" "m-2"
            Contracts.Assignments.assigned _ _).
  - reflexivity.
  - left. reflexivity.
Defined.

(** The associate of the specification's example: read on matter is
    granted, the matter is not assigned, the decision is OutOfScope. *)
Example authorize_associate_out_of_scope :
  fst (Contracts.authorize (Contracts.mkPrincipal "u5" "associate" "firm-1")
         "matter" "read" (Some "m-2") (Some Contracts.Assignments.assigned)
         (Contracts.loaded {[ ("u5", "m-1") ]}))
  = inr (Contracts.mkDecision false Contracts.OutOfScope).
Proof. vm_compute. reflexivity. Qed.

Example authorize_owner_billing_approve :
  fst (Contracts.authorize (T := string)
         (Contracts.mkPrincipal "u1" "owner" "firm-1")
         "billing" "approve" None None (Contracts.loaded ()))
  = inr (Contracts.mkDecision true Contracts.Granted).
Proof. vm_compute. reflexivity. Qed.

(** C4, as stated, fails when the role lacks the grant: step 2 answers
    with a deny decision before step 3 asks for the scope predicate.  A
    client asking to delete a matter, with a target and no predicate,
    is denied with InsufficientRolePermission. *)
Lemma authorize_no_predicate_denied_first :
  fst (Contracts.authorize (T := string) (W := unit)
         (Contracts.mkPrincipal "u3" "client" "firm-1")
         "matter" "delete" (Some "m-1") None (Contracts.loaded ()))
  = inr (Contracts.mkDecision false Contracts.InsufficientRolePermission)
  ∧ "matter" ∈ Contracts.scopeRestricted.
Proof.
  split; [vm_compute; reflexivity|].
  apply (bool_decide_unpack _). vm_compute. exact I.
Qed.

(** C4, amended. When the principal's role is registered and grants the
    action, a call on a scope-restricted kind with a target and no scope
    predicate stops with the fault MissingScopePredicate: no decision is
    returned and the state is left as it was. *)
Theorem authorize_missing_scope_predicate {T W : Type} (s : Contracts.State W)
    (pr : Contracts.Principal) (role : Grants) (rk a : string) (t : T) :
  Contracts.registry s !! Contracts.roleName pr = Some role →
  Contracts.hasPermission role rk a = true →
  rk ∈ Contracts.scopeRestricted →
  Contracts.authorize pr rk a (Some t) None s
    = (inl Contracts.MissingScopePredicate, s)
  ∧ ∀ d : Contracts.Decision,
      fst (Contracts.authorize pr rk a (Some t) None s) ≠ inr d.
Proof.
  intros Hrole Hperm Hrk.
  rewrite (authorize_run _ _ _ _ _ _ _ Hrole), Hperm.
  rewrite (bool_decide_eq_true_2 _ Hrk). split; [reflexivity|].
  intros d. discriminate.
Qed.

(** The specification's example: staff reading a matter, target given,
    no predicate. *)
Lemma authorize_missing_scope_predicate_witness :
  Contracts.authorize (T := string) (W := unit)
    (Contracts.mkPrincipal "u4" "staff" "firm-1") "matter" "read"
    (Some "m-1") None (Contracts.loaded ())
    = (inl Contracts.MissingScopePredicate, Contracts.loaded ())
  ∧ ∀ d : Contracts.Decision,
      fst (Contracts.authorize (T := string) (W := unit)
             (Contracts.mkPrincipal "u4" "staff" "firm-1") "matter" "read"
             (Some "m-1") None (Contracts.loaded ())) ≠ inr d.
Proof.
  refine (authorize_missing_scope_predicate (Contracts.loaded ())
            (Contracts.mkPrincipal "u4" "staff" "firm-1")
            Permissions.staff "matter" "read" "m-1" _ _ _).
  - reflexivity.
  - reflexivity.
  - apply (bool_decide_unpack _). vm_compute. exact I.
Defined.

(** * Role definition *)

Section DefineRole.
Import Permissions Contracts.
Context {W : Type}.







End DefineRole.





(** C8. Two calls of [authorize] in a row with the same arguments and an
    idempotent scope predicate return the same result, and no call
    changes the catalog or the registry. *)
Theorem authorize_idempotent :
  (∀ (T W : Type) (s : Contracts.State W) (pr : Contracts.Principal)
     (rk a : string) (tgt : option T)
     (sp : option (@Contracts.ScopePredicate T W)),
      (∀ p, sp = Some p → Contracts.idempotent p) →
      fst (Contracts.authorize pr rk a tgt sp
             (snd (Contracts.authorize pr rk a tgt sp s)))
      = fst (Contracts.authorize pr rk a tgt sp s))
  ∧ (∀ (T W : Type) (s : Contracts.State W) (pr : Contracts.Principal)
       (rk a : string) (tgt : option T)
       (sp : option (@Contracts.ScopePredicate T W)),
      Contracts.catalog (snd (Contracts.authorize pr rk a tgt sp s))
        = Contracts.catalog s
      ∧ Contracts.registry (snd (Contracts.authorize pr rk a tgt sp s))
        = Contracts.registry s).
Proof.
  split; [|intros; apply authorize_frame].
  intros T W s pr rk a tgt sp Hidem.
  destruct (Contracts.registry s !! Contracts.roleName pr) as [role|] eqn:Hrole.
  - assert (Contracts.registry (snd (Contracts.authorize pr rk a tgt sp s))
              !! Contracts.roleName pr = Some role) as Hrole'.
    { rewrite (proj2 (authorize_frame s pr rk a tgt sp)). exact Hrole. }
    rewrite (authorize_run _ _ _ _ _ _ _ Hrole').
    rewrite (authorize_run _ _ _ _ _ _ _ Hrole).
    destruct (Contracts.hasPermission role rk a); [|reflexivity].
    destruct (bool_decide (rk ∈ Contracts.scopeRestricted)); [|reflexivity].
    destruct tgt as [t|]; [|reflexivity]. destruct sp as [p|]; [|reflexivity].
    cbn [fst snd Contracts.store]. by rewrite (Hidem p eq_refl pr t).
  - rewrite (authorize_unknown_role s) by exact Hrole. cbn [fst snd].
    rewrite (authorize_unknown_role s) by exact Hrole. reflexivity.
Qed.

Lemma assigned_idempotent : Contracts.idempotent Contracts.Assignments.assigned.
Proof. intros pr t w. reflexivity. Qed.

Lemma authorize_idempotent_witness :
  fst (Contracts.authorize (Contracts.mkPrincipal "u5" "associate" "firm-1")
         "matter" "read" (Some "m-1") (Some Contracts.Assignments.assigned)
         (snd (Contracts.authorize
                 (Contracts.mkPrincipal "u5" "associate" "firm-1")
                 "matter" "read" (Some "m-1")
                 (Some Contracts.Assignments.assigned)
                 (Contracts.loaded {[ ("u5", "m-1") ]}))))
  = fst (Contracts.authorize (Contracts.mkPrincipal "u5" "associate" "firm-1")
           "matter" "read" (Some "m-1") (Some Contracts.Assignments.assigned)
           (Contracts.loaded {[ ("u5", "m-1") ]})).
Proof.
  refine (proj1 authorize_idempotent string (gset (string * string))
            (Contracts.loaded {[ ("u5", "m-1") ]})
            (Contracts.mkPrincipal "u5" "associate" "firm-1")
            "matter" "read" (Some "m-1")
            (Some Contracts.Assignments.assigned) _).
  intros p [= <-]. exact assigned_idempotent.
Defined.

(** Without idempotence of the predicate the two results can differ: a
    one-time grant allows the first call and is out of scope at the
    second. *)
Example authorize_one_time_grant :
  fst (Contracts.authorize (Contracts.mkPrincipal "u5" "associate" "firm-1")
         "matter" "read" (Some "m-1") (Some Contracts.Assignments.oneTime)
         (Contracts.loaded {[ ("u5", "m-1") ]}))
  = inr Contracts.granted
  ∧ fst (Contracts.authorize (Contracts.mkPrincipal "u5" "associate" "firm-1")
           "matter" "read" (Some "m-1") (Some Contracts.Assignments.oneTime)
           (snd (Contracts.authorize
                   (Contracts.mkPrincipal "u5" "associate" "firm-1")
                   "matter" "read" (Some "m-1")
                   (Some Contracts.Assignments.oneTime)
                   (Contracts.loaded {[ ("u5", "m-1") ]}))))
    = inr (Contracts.mkDecision false Contracts.OutOfScope).
Proof. split; vm_compute; reflexivity. Qed.

(** * Further facts about the hierarchy and the role literals *)

Ltac entry_of H :=
  repeat (apply elem_of_cons in H as [H|H]; [simplify_eq|]);
  try (by apply elem_of_nil in H).

(** [hasMinimumRole] is reflexive, transitive and total on all strings,
    known to the hierarchy or not. *)
Theorem hasMinimumRole_total_preorder :
  (∀ a : string, Roles.hasMinimumRole a a = true)
  ∧ (∀ a b c : string,
        Roles.hasMinimumRole a b = true → Roles.hasMinimumRole b c = true →
        Roles.hasMinimumRole a c = true)
  ∧ (∀ a b : string,
        Roles.hasMinimumRole a b = true ∨ Roles.hasMinimumRole b a = true).
Proof.
  repeat split; intros *; rewrite ?hasMinimumRole_spec; lia.
Qed.

Lemma hasMinimumRole_total_preorder_witness :
  Roles.hasMinimumRole "owner" "staff" = true.
Proof.
  refine (proj1 (proj2 hasMinimumRole_total_preorder)
            "owner" "associate" "staff" _ _); reflexivity.
Defined.

(** On the roles of the hierarchy the check is antisymmetric: two roles
    that are each at least the other are the same role. *)
Theorem hasMinimumRole_antisymmetric (a b : string) :
  a ∈ Roles.RoleHierarchy → b ∈ Roles.RoleHierarchy →
  Roles.hasMinimumRole a b = true → Roles.hasMinimumRole b a = true →
  a = b.
Proof.
  unfold Roles.RoleHierarchy at 1 2. intros Ha Hb.
  each_member Ha; each_member Hb; vm_compute; intros; congruence.
Qed.

Lemma hasMinimumRole_antisymmetric_witness : "partner" = "partner".
Proof.
  refine (hasMinimumRole_antisymmetric "partner" "partner" _ _ _ _);
    try reflexivity; apply (bool_decide_unpack _); vm_compute; exact I.
Defined.

(** The hierarchy, the [LegalRoles] constants and the keys of the [roles]
    record name the same six roles, each once. *)
Theorem hierarchy_names_the_roles :
  NoDup Roles.RoleHierarchy
  ∧ (∀ x : string, x ∈ Roles.RoleHierarchy ↔ x ∈ Roles.LegalRoles.*2)
  ∧ (∀ x : string, x ∈ Roles.RoleHierarchy ↔ is_Some (Permissions.roles !! x)).
Proof.
  split; [apply (bool_decide_unpack _); vm_compute; exact I|]. split.
  - intros x. unfold Roles.RoleHierarchy, Roles.LegalRoles. cbn.
    rewrite !elem_of_cons, !elem_of_nil. tauto.
  - intros x. split.
    + unfold Roles.RoleHierarchy. intros Hx. each_member Hx; by eexists.
    + intros [role Hrole]. apply roles_lookup in Hrole.
      unfold Permissions.roles_entries in Hrole.
      repeat (apply elem_of_cons in Hrole as [[= -> ->]|Hrole]);
        [..|by apply elem_of_nil in Hrole];
        apply (bool_decide_unpack _); vm_compute; exact I.
Qed.

(** The owner role is granted every declared action: its literal is the
    statement itself. *)
Theorem owner_is_the_statement :
  Permissions.owner = Permissions.statement
  ∧ ∀ rk : string,
      grantList Permissions.owner rk = grantList Permissions.statement rk.
Proof. split; [reflexivity|]. intros rk. reflexivity. Qed.

Lemma grants_along_hierarchy_step (i : nat) (lo hi : string)
    (rlo rhi : Grants) (rk a : string) :
  Roles.RoleHierarchy !! i = Some lo →
  Roles.RoleHierarchy !! S i = Some hi →
  Permissions.roles !! lo = Some rlo →
  Permissions.roles !! hi = Some rhi →
  a ∈ grantList rlo rk →
  a ∈ grantList rhi rk
  ∨ (lo = "staff" ∧ hi = "paralegal" ∧ rk = "billing" ∧ a = "create").
Proof.
  intros Hlo Hhi Hrlo Hrhi Ha.
  assert (∃ acts, rlo !! rk = Some acts ∧ a ∈ acts) as (acts & Hrk & Hin).
  { unfold grantList in Ha. destruct (rlo !! rk) as [acts|]; [by eexists|].
    by apply elem_of_nil in Ha. }
  assert (∀ (l h : Grants) (exc : list (string * string)),
            map_Forall (λ k acts,
              Forall (λ x, x ∈ grantList h k ∨ (k, x) ∈ exc) acts) l →
            l !! rk = Some acts → a ∈ grantList h rk ∨ (rk, a) ∈ exc) as step.
  { intros l h exc Hall Hl. specialize (Hall rk acts Hl).
    rewrite Forall_forall in Hall. by apply Hall. }
  apply roles_lookup in Hrlo, Hrhi. unfold Permissions.roles_entries in Hrlo, Hrhi.
  destruct i as [|[|[|[|[|i]]]]];
    [ injection Hlo as <-; injection Hhi as <-;
      entry_of Hrlo; entry_of Hrhi .. | ].
  6: { destruct i; discriminate Hhi. }
  2: { destruct (step Permissions.staff Permissions.paralegal
                   [("billing", "create")]) as [?|Hexc]; [..|by left|].
       - apply (bool_decide_unpack _). vm_compute. exact I.
       - exact Hrk.
       - right. apply list_elem_of_singleton in Hexc as [= -> ->]. done. }
  all: left;
    match goal with
    | Hl : ?l !! _ = Some _ |- _ ∈ grantList ?h _ =>
        destruct (step l h []) as [?|Hexc];
          [ apply (bool_decide_unpack _); vm_compute; exact I
          | exact Hl | assumption | by apply elem_of_nil in Hexc ]
    end.
Qed.

(** One step up the hierarchy keeps every grant, but for the step from
    staff to paralegal, which loses [create] on billing and nothing
    else: staff, at place 1, holds that grant and paralegal, at place 2,
    does not. *)
Theorem grants_along_hierarchy :
  (∀ (i : nat) (lo hi : string) (rlo rhi : Grants) (rk a : string),
      Roles.RoleHierarchy !! i = Some lo →
      Roles.RoleHierarchy !! S i = Some hi →
      Permissions.roles !! lo = Some rlo →
      Permissions.roles !! hi = Some rhi →
      a ∈ grantList rlo rk →
      a ∈ grantList rhi rk
      ∨ (lo = "staff" ∧ hi = "paralegal" ∧ rk = "billing" ∧ a = "create"))
  ∧ Roles.RoleHierarchy !! 1%nat = Some "staff"
  ∧ Roles.RoleHierarchy !! 2%nat = Some "paralegal"
  ∧ Permissions.roles !! "staff" = Some Permissions.staff
  ∧ Permissions.roles !! "paralegal" = Some Permissions.paralegal
  ∧ "create" ∈ grantList Permissions.staff "billing"
  ∧ ("create" ∉ grantList Permissions.paralegal "billing").
Proof.
  split; [exact grants_along_hierarchy_step|].
  split_and!; try reflexivity;
    apply (bool_decide_unpack _); vm_compute; exact I.
Qed.

Lemma grants_along_hierarchy_witness :
  "create" ∈ grantList Permissions.paralegal "billing"
  ∨ ("staff" = "staff" ∧ "paralegal" = "paralegal"
     ∧ "billing" = "billing" ∧ "create" = "create").
Proof.
  refine (proj1 grants_along_hierarchy 1%nat "staff" "paralegal"
            Permissions.staff Permissions.paralegal "billing" "create" _ _ _ _ _);
    try reflexivity.
  apply (bool_decide_unpack _). vm_compute. exact I.
Defined.

(** * The hierarchy check on arbitrary role names *)

Lemma RoleHierarchy_index (i : nat) (role : string) :
  Roles.RoleHierarchy !! i = Some role →
  Roles.indexOf Roles.RoleHierarchy role = Z.of_nat i.
Proof.
  intros Hi.
  do 6 (destruct i as [|i]; [injection Hi as <-; reflexivity|]).
  discriminate Hi.
Qed.

(** [hasMinimumRole] on any two strings: the check passes exactly when
    the required role is not in the hierarchy at all, or both roles are
    in it and the user's role stands at the same place or later.  Two
    names unknown to the hierarchy therefore pass against each other. *)
Theorem hasMinimumRole_characterisation (userRole requiredRole : string) :
  Roles.hasMinimumRole userRole requiredRole = true
  ↔ requiredRole ∉ Roles.RoleHierarchy
    ∨ ∃ i j : nat,
        Roles.RoleHierarchy !! i = Some userRole
        ∧ Roles.RoleHierarchy !! j = Some requiredRole
        ∧ (j ≤ i)%nat.
Proof.
  rewrite hasMinimumRole_spec.
  destruct (decide (requiredRole ∈ Roles.RoleHierarchy)) as [Hr|Hr].
  - apply list_elem_of_lookup in Hr as [j Hj].
    rewrite (RoleHierarchy_index _ _ Hj).
    destruct (decide (userRole ∈ Roles.RoleHierarchy)) as [Hu|Hu].
    + apply list_elem_of_lookup in Hu as [i Hi].
      rewrite (RoleHierarchy_index _ _ Hi). split.
      * intros Hle. right. exists i, j. repeat split; [done..|lia].
      * intros [Hn|(i' & j' & Hi' & Hj' & Hle)].
        { exfalso. apply Hn. apply list_elem_of_lookup. eauto. }
        apply RoleHierarchy_index in Hi', Hj'.
        apply RoleHierarchy_index in Hi, Hj. lia.
    + rewrite (indexOf_notin _ _ Hu). split; [lia|].
      intros [Hn|(i' & j' & Hi' & _)].
      * exfalso. apply Hn. apply list_elem_of_lookup. eauto.
      * exfalso. apply Hu. apply list_elem_of_lookup. eauto.
  - rewrite (indexOf_notin _ _ Hr).
    pose proof (indexOf_lower Roles.RoleHierarchy userRole).
    split; [by left|lia].
Qed.

(** * The hierarchy check against the grants, for every pair of roles *)

Lemma grants_included_except (lo hi : Grants) (exc : list (string * string))
    (rk a : string) :
  map_Forall (λ k acts,
    Forall (λ x, x ∈ grantList hi k ∨ (k, x) ∈ exc) acts) lo →
  a ∈ grantList lo rk →
  a ∈ grantList hi rk ∨ (rk, a) ∈ exc.
Proof.
  intros Hall Ha. unfold grantList in Ha at 1.
  destruct (lo !! rk) as [acts|] eqn:Hrk; [|by apply elem_of_nil in Ha].
  specialize (Hall rk acts Hrk). rewrite Forall_forall in Hall. by apply Hall.
Qed.

Ltac entry_cases H :=
  apply roles_lookup in H; unfold Permissions.roles_entries in H;
  repeat (apply elem_of_cons in H as [[= -> ->]|H]);
  [..|by apply elem_of_nil in H].

Ltac covered_but exc :=
  match goal with
  | Ha : _ ∈ grantList ?lo _ |- _ ∈ grantList ?hi _ ∨ _ =>
      let Hall := fresh "Hall" in
      assert (map_Forall (λ k acts,
                Forall (λ x, x ∈ grantList hi k ∨ (k, x) ∈ exc) acts) lo) as Hall
        by (apply (bool_decide_unpack _); vm_compute; exact I);
      destruct (grants_included_except lo hi exc _ _ Hall Ha) as [?|Hexc]
  end.

Lemma hasMinimumRole_covers_grants_bound (userRole requiredRole : string)
    (userGrants requiredGrants : Grants) (rk a : string) :
  Permissions.roles !! userRole = Some userGrants →
  Permissions.roles !! requiredRole = Some requiredGrants →
  Roles.hasMinimumRole userRole requiredRole = true →
  a ∈ grantList requiredGrants rk →
  a ∈ grantList userGrants rk
  ∨ (requiredRole = "staff"
     ∧ (userRole = "paralegal" ∨ userRole = "associate")
     ∧ rk = "billing" ∧ a = "create"
     ∧ a ∉ grantList userGrants rk).
Proof.
  intros Hu Hr Hmin Ha.
  entry_cases Hu; entry_cases Hr;
    try (vm_compute in Hmin; discriminate Hmin);
    first
      [ covered_but (@nil (string * string));
          [by left|by apply elem_of_nil in Hexc]
      | covered_but [("billing", "create")]; [by left|right];
          apply list_elem_of_singleton in Hexc as [= -> ->];
          repeat split; try (by left); try (by right);
          apply (bool_decide_unpack _); vm_compute; exact I ].
Qed.

(** Whenever [hasMinimumRole userRole requiredRole] passes for two roles
    of the [roles] record, the user's role holds every grant of the
    required role, with one exception, which does occur: paralegal and
    associate both pass the check against staff, staff holds [create]
    on billing, and neither of the two does. *)
Theorem hasMinimumRole_covers_grants :
  (∀ (userRole requiredRole : string) (userGrants requiredGrants : Grants)
     (rk a : string),
      Permissions.roles !! userRole = Some userGrants →
      Permissions.roles !! requiredRole = Some requiredGrants →
      Roles.hasMinimumRole userRole requiredRole = true →
      a ∈ grantList requiredGrants rk →
      a ∈ grantList userGrants rk
      ∨ (requiredRole = "staff"
         ∧ (userRole = "paralegal" ∨ userRole = "associate")
         ∧ rk = "billing" ∧ a = "create"))
  ∧ Permissions.roles !! "staff" = Some Permissions.staff
  ∧ "create" ∈ grantList Permissions.staff "billing"
  ∧ Permissions.roles !! "paralegal" = Some Permissions.paralegal
  ∧ Roles.hasMinimumRole "paralegal" "staff" = true
  ∧ ("create" ∉ grantList Permissions.paralegal "billing")
  ∧ Permissions.roles !! "associate" = Some Permissions.associate
  ∧ Roles.hasMinimumRole "associate" "staff" = true
  ∧ ("create" ∉ grantList Permissions.associate "billing").
Proof.
  split.
  - intros userRole requiredRole userGrants requiredGrants rk a Hu Hr Hmin Ha.
    destruct (hasMinimumRole_covers_grants_bound _ _ _ _ _ _ Hu Hr Hmin Ha)
      as [?|(? & ? & ? & ? & _)]; [by left|by right].
  - split_and!; try reflexivity;
      apply (bool_decide_unpack _); vm_compute; exact I.
Qed.

Lemma hasMinimumRole_covers_grants_witness :
  "create" ∈ grantList Permissions.associate "billing"
  ∨ ("staff" = "staff"
     ∧ ("associate" = "paralegal" ∨ "associate" = "associate")
     ∧ "billing" = "billing" ∧ "create" = "create").
Proof.
  refine (proj1 hasMinimumRole_covers_grants "associate" "staff"
            Permissions.associate Permissions.staff "billing" "create" _ _ _ _);
    try reflexivity.
  apply (bool_decide_unpack _). vm_compute. exact I.
Defined.

(** * The auth client *)

Lemma orElse_nonempty (x : option string) (d : string) :
  d ≠ "" → Js.orElse x d ≠ "".
Proof.
  intros Hd. unfold Js.orElse. destruct x as [s|]; [|exact Hd].
  destruct (String.eqb_spec s ""); assumption.
Qed.

Lemma truthy_nonempty (msg : string) : msg ≠ "" → Js.truthy (Some msg) = true.
Proof.
  intros H. unfold Js.truthy. by destruct (String.eqb_spec msg "").
Qed.

(** On the server the base URL of the auth client is never the empty
    string: an unset or empty [NEXT_PUBLIC_APP_URL] gives the localhost
    address and any other value is used as it is.  In a browser the base
    URL is the page's origin and the environment variable is ignored. *)
Theorem baseURL_server_and_browser :
  (∀ env : option string, Client.baseURL None env ≠ "")
  ∧ (∀ env : option string,
        Client.baseURL None env = "http://localhost:3000"
        ↔ env = None ∨ env = Some "" ∨ env = Some "http://localhost:3000")
  ∧ (∀ url : string, url ≠ "" → Client.baseURL None (Some url) = url)
  ∧ (∀ (w : Client.Window) (env env' : option string),
        Client.baseURL (Some w) env = Client.baseURL (Some w) env'
        ∧ Client.baseURL (Some w) env = Client.origin w).
Proof.
  split; [|split; [|split]].
  - intros env. by apply orElse_nonempty.
  - intros [s|]; cbn; [|naive_solver].
    destruct (String.eqb_spec s "") as [->|Hne]; [naive_solver|].
    split; [intros ->; auto|]. intros [?|[[= ->]|[= ->]]]; done.
  - intros url Hne. cbn. by destruct (String.eqb_spec url "").
  - done.
Qed.

Lemma baseURL_server_and_browser_witness :
  Client.baseURL None (Some "https://firm.example") = "https://firm.example".
Proof.
  refine (proj1 (proj2 (proj2 baseURL_server_and_browser))
            "https://firm.example" _).
  discriminate.
Defined.

(** * The login form *)

Section Login.
Import LoginForm.

Lemma login_run_handleSubmit (cb : string) (st : State) (resp : Response) :
  run st (handleSubmit cb st resp)
  = run (mkState (email st) (password st) None true) (afterAwait cb resp).
Proof. unfold handleSubmit, run. rewrite foldl_app. reflexivity. Qed.

Lemma login_run_frame (st : State) (effects : list Effect) :
  email (run st effects) = email st ∧ password (run st effects) = password st.
Proof.
  revert st. induction effects as [|e effects IH]; intros st; [done|].
  change (run st (e :: effects)) with (run (update st e) effects).
  destruct (IH (update st e)) as [-> ->]. by destruct e.
Qed.

Lemma login_handleSubmit_ext (cb : string) (st st' : State) (resp : Response) :
  email st' = email st → password st' = password st →
  handleSubmit cb st' resp = handleSubmit cb st resp.
Proof. intros Hm Hp. unfold handleSubmit, beforeAwait. by rewrite Hm, Hp. Qed.

Lemma login_render_error (m p msg : string) :
  msg ≠ "" →
  render (mkState m p (Some msg) false) = mkView (Some msg) false "Sign In".
Proof.
  intros Hne. unfold render. cbn [error loading].
  by rewrite (truthy_nonempty _ Hne).
Qed.

End Login.

(** One submit of the login form ends in exactly one of two ways.  If
    the request is rejected or resolves with an error (whatever [data]
    it carries), nothing is pushed to the router, the inputs are enabled
    again and a non-empty alert is shown.  Otherwise exactly one URL is
    pushed, the callback URL or ["/verify-2fa"], no alert is shown and
    the form stays disabled.  Either way the sign-in request is made
    once, with the e-mail and password of the state, which the handler
    leaves unchanged. *)
Theorem login_submit_outcome (callbackUrl : string) (st : LoginForm.State)
    (response : LoginForm.Response) :
  LoginForm.signIns (LoginForm.handleSubmit callbackUrl st response)
    = [(LoginForm.email st, LoginForm.password st)]
  ∧ LoginForm.email (LoginForm.run st (LoginForm.handleSubmit callbackUrl st response))
    = LoginForm.email st
  ∧ LoginForm.password (LoginForm.run st (LoginForm.handleSubmit callbackUrl st response))
    = LoginForm.password st
  ∧ ( ( (response = LoginForm.Rejected
         ∨ ∃ data e, response = LoginForm.Resolved data (Some e))
        ∧ LoginForm.pushes (LoginForm.handleSubmit callbackUrl st response) = []
        ∧ ∃ msg : string,
            msg ≠ ""
            ∧ LoginForm.render
                (LoginForm.run st (LoginForm.handleSubmit callbackUrl st response))
              = LoginForm.mkView (Some msg) false "Sign In" )
    ∨ ( (∃ data, response = LoginForm.Resolved data None)
        ∧ (∃ url : string,
            LoginForm.pushes (LoginForm.handleSubmit callbackUrl st response) = [url]
            ∧ (url = callbackUrl ∨ url = "/verify-2fa"))
        ∧ LoginForm.render
            (LoginForm.run st (LoginForm.handleSubmit callbackUrl st response))
          = LoginForm.mkView None true "Signing in..." ) ).
Proof.
  rewrite login_run_handleSubmit.
  destruct response as [|data [e|]].
  - repeat split; try reflexivity. left. split; [by left|]. split; [reflexivity|].
    by exists "An unexpected error occurred".
  - repeat split; try reflexivity. left. split; [right; eauto|].
    split; [reflexivity|].
    exists (Js.orElse (LoginForm.message e) "Failed to sign in").
    assert (Js.orElse (LoginForm.message e) "Failed to sign in" ≠ "") as Hne
      by (by apply orElse_nonempty).
    split; [exact Hne|]. by apply login_render_error.
  - unfold LoginForm.handleSubmit, LoginForm.afterAwait.
    destruct (LoginForm.twoFactorRequired data);
      (repeat split; try reflexivity); right;
      (split; [eauto|]); (split; [|reflexivity]); eexists; split; eauto.
Qed.

(** Submits of the login form compose without memory: the effects and
    the state a submit ends in depend on the e-mail, the password and the
    response only, not on the error or loading flag earlier submits left
    behind; so a retry after a failure behaves as a first submit. *)
Theorem login_submit_forgets_earlier_submits (callbackUrl : string)
    (st : LoginForm.State) (first second : LoginForm.Response) :
  LoginForm.handleSubmit callbackUrl
    (LoginForm.run st (LoginForm.handleSubmit callbackUrl st first)) second
  = LoginForm.handleSubmit callbackUrl st second
  ∧ LoginForm.run
      (LoginForm.run st (LoginForm.handleSubmit callbackUrl st first))
      (LoginForm.handleSubmit callbackUrl
         (LoginForm.run st (LoginForm.handleSubmit callbackUrl st first)) second)
    = LoginForm.run st (LoginForm.handleSubmit callbackUrl st second).
Proof.
  destruct (login_run_frame st (LoginForm.handleSubmit callbackUrl st first))
    as [Hm Hp].
  assert (LoginForm.handleSubmit callbackUrl
            (LoginForm.run st (LoginForm.handleSubmit callbackUrl st first)) second
          = LoginForm.handleSubmit callbackUrl st second) as Heq.
  { by apply login_handleSubmit_ext. }
  split; [exact Heq|].
  rewrite (login_run_handleSubmit callbackUrl
             (LoginForm.run st (LoginForm.handleSubmit callbackUrl st first))
             second), Hm, Hp.
  symmetry. apply login_run_handleSubmit.
Qed.

(** * The sign-up form *)

Section Signup.
Import SignupForm.

(** The three ways through [handleSubmit]. *)
Lemma signup_handleSubmit_cases (cb : string) (st : State) (resp : Response) :
  (password st ≠ confirmPassword st
   ∧ handleSubmit cb st resp
     = [PreventDefault; SetError None; SetError (Some "Passwords do not match")])
  ∨ (password st = confirmPassword st
     ∧ (length (password st) < 8)%nat
     ∧ handleSubmit cb st resp
       = [PreventDefault; SetError None;
          SetError (Some "Password must be at least 8 characters")])
  ∨ (password st = confirmPassword st
     ∧ (8 ≤ length (password st))%nat
     ∧ handleSubmit cb st resp
       = ([PreventDefault; SetError None; SetLoading true;
           SignUpEmail (email st) (password st) (name st)]
          ++ afterAwait cb resp)%list).
Proof.
  unfold handleSubmit.
  destruct (decide (password st = confirmPassword st)) as [Heq|Hne].
  2: { rewrite (bool_decide_eq_false_2 _ Hne). by left. }
  rewrite (bool_decide_eq_true_2 _ Heq). cbn [negb].
  right. destruct (Nat.ltb_spec (length (password st)) 8) as [Hlt|Hge].
  - left. done.
  - right. done.
Qed.

Lemma signup_afterAwait_cases (cb : string) (resp : Response) :
  (resp = Resolved None ∧ afterAwait cb resp = [RouterPush cb])
  ∨ (resp ≠ Resolved None
     ∧ ∃ msg, msg ≠ ""
         ∧ afterAwait cb resp = [SetError (Some msg); SetLoading false]).
Proof.
  destruct resp as [|[e|]].
  - right. split; [done|]. by exists "An unexpected error occurred".
  - right. split; [done|].
    exists (Js.orElse (message e) "Failed to create account").
    split; [by apply orElse_nonempty|done].
  - by left.
Qed.

End Signup.

(** The sign-up form sends nothing it has not validated: the sign-up
    request is made, once and with the e-mail, password and name of the
    state, exactly when the password equals its confirmation and has at
    least 8 characters; otherwise no request is made; and nothing is
    pushed to the router unless the request was made and resolved
    without error. *)
Theorem signup_request_guard (callbackUrl : string) (st : SignupForm.State)
    (response : SignupForm.Response) :
  (SignupForm.signUps (SignupForm.handleSubmit callbackUrl st response)
     = [(SignupForm.email st, SignupForm.password st, SignupForm.name st)]
   ↔ SignupForm.password st = SignupForm.confirmPassword st
     ∧ (8 ≤ length (SignupForm.password st))%nat)
  ∧ (SignupForm.signUps (SignupForm.handleSubmit callbackUrl st response) = []
     ↔ ¬ (SignupForm.password st = SignupForm.confirmPassword st
          ∧ (8 ≤ length (SignupForm.password st))%nat))
  ∧ (SignupForm.pushes (SignupForm.handleSubmit callbackUrl st response) = [callbackUrl]
     ↔ SignupForm.password st = SignupForm.confirmPassword st
       ∧ (8 ≤ length (SignupForm.password st))%nat
       ∧ response = SignupForm.Resolved None)
  ∧ (SignupForm.pushes (SignupForm.handleSubmit callbackUrl st response) = []
     ∨ SignupForm.pushes (SignupForm.handleSubmit callbackUrl st response)
       = [callbackUrl]).
Proof.
  destruct (signup_handleSubmit_cases callbackUrl st response)
    as [(Hne & ->)|[(Heq & Hlt & ->)|(Heq & Hge & ->)]].
  - cbn. split_and!; [intuition (congruence || discriminate)..|by left].
  - cbn. split_and!; [intuition (lia || discriminate)..|by left].
  - destruct (signup_afterAwait_cases callbackUrl response)
      as [(-> & ->)|(Hresp & msg & _ & ->)]; cbn.
    + split_and!; [intuition (congruence || discriminate)..|by right].
    + split_and!; [intuition (congruence || discriminate)..|by left].
Qed.

(** One submit of the sign-up form ends in one of four ways: passwords
    differ (this is reported even when the password is also too short),
    password too short, request failed, or request succeeded.  A failed
    validation sets its message and leaves the loading flag as it was; a
    failed request sets a non-empty message and clears the flag; only a
    successful request pushes the callback URL, and then the error is
    null and the flag stays set. *)
Theorem signup_submit_outcome (callbackUrl : string) (st : SignupForm.State)
    (response : SignupForm.Response) :
  ( SignupForm.password st ≠ SignupForm.confirmPassword st
    ∧ SignupForm.error (SignupForm.run st (SignupForm.handleSubmit callbackUrl st response))
      = Some "Passwords do not match"
    ∧ SignupForm.loading (SignupForm.run st (SignupForm.handleSubmit callbackUrl st response))
      = SignupForm.loading st )
  ∨ ( SignupForm.password st = SignupForm.confirmPassword st
      ∧ (length (SignupForm.password st) < 8)%nat
      ∧ SignupForm.error (SignupForm.run st (SignupForm.handleSubmit callbackUrl st response))
        = Some "Password must be at least 8 characters"
      ∧ SignupForm.loading (SignupForm.run st (SignupForm.handleSubmit callbackUrl st response))
        = SignupForm.loading st )
  ∨ ( SignupForm.password st = SignupForm.confirmPassword st
      ∧ (8 ≤ length (SignupForm.password st))%nat
      ∧ response ≠ SignupForm.Resolved None
      ∧ (∃ msg : string,
            msg ≠ ""
            ∧ SignupForm.error
                (SignupForm.run st (SignupForm.handleSubmit callbackUrl st response))
              = Some msg)
      ∧ SignupForm.loading (SignupForm.run st (SignupForm.handleSubmit callbackUrl st response))
        = false )
  ∨ ( SignupForm.password st = SignupForm.confirmPassword st
      ∧ (8 ≤ length (SignupForm.password st))%nat
      ∧ response = SignupForm.Resolved None
      ∧ SignupForm.error (SignupForm.run st (SignupForm.handleSubmit callbackUrl st response))
        = None
      ∧ SignupForm.loading (SignupForm.run st (SignupForm.handleSubmit callbackUrl st response))
        = true ).
Proof.
  destruct (signup_handleSubmit_cases callbackUrl st response)
    as [(Hne & ->)|[(Heq & Hlt & ->)|(Heq & Hge & ->)]].
  - left. done.
  - right; left. done.
  - right; right.
    destruct (signup_afterAwait_cases callbackUrl response)
      as [(-> & ->)|(Hresp & msg & Hmsg & ->)].
    + right. done.
    + left. repeat split; try done. by exists msg.
Qed.

(** The password [pässwör] has seven code units (nine bytes in UTF-8):
    confirmed or not, it is too short, no request is made and nothing is
    pushed. *)
Example signup_seven_code_units :
  SignupForm.handleSubmit "/dashboard"
    (SignupForm.mkState [] []
       [112%N; 228%N; 115%N; 115%N; 119%N; 246%N; 114%N]
       [112%N; 228%N; 115%N; 115%N; 119%N; 246%N; 114%N] None false)
    (SignupForm.Resolved None)
  = [ SignupForm.PreventDefault; SignupForm.SetError None;
      SignupForm.SetError (Some "Password must be at least 8 characters") ].
Proof. reflexivity. Qed.

(** * The middleware sample *)

Section MiddlewareFacts.
Import Middleware.

Lemma append_cons (x : Ascii.ascii) (a b : string) :
  String.append (String x a) b = String x (String.append a b).
Proof. reflexivity. Qed.

Lemma prefix_append (a b : string) : String.prefix a (String.append a b) = true.
Proof.
  induction a as [|x a IH]; [by destruct b|].
  rewrite append_cons. simpl.
  destruct (Ascii.ascii_dec x x); [exact IH|done].
Qed.

Lemma append_assoc (a b c : string) :
  String.append (String.append a b) c = String.append a (String.append b c).
Proof.
  induction a as [|x a IH]; [done|]. rewrite !append_cons. by rewrite IH.
Qed.

Lemma prefix_inv (a p : string) :
  String.prefix a p = true → ∃ rest, p = String.append a rest.
Proof.
  revert p. induction a as [|x a IH]; intros p H; [by exists p|].
  destruct p as [|y p]; [discriminate H|]. simpl in H.
  destruct (Ascii.ascii_dec x y) as [->|]; [|discriminate H].
  destruct (IH p H) as [rest ->]. by exists rest.
Qed.

Lemma isPublicRoute_true (pathname : string) :
  isPublicRoute pathname = true
  ↔ ∃ route, route ∈ publicRoutes
      ∧ (pathname = route
         ∨ ∃ rest, pathname = String.append route (String.append "/" rest)).
Proof.
  unfold isPublicRoute. rewrite existsb_exists. split.
  - intros (route & Hin & H). exists route.
    split; [by apply list_elem_of_In|].
    apply orb_true_iff in H as [H|H].
    + left. by apply String.eqb_eq.
    + right. apply prefix_inv in H as [rest ->]. exists rest.
      apply append_assoc.
  - intros (route & Hin & H). exists route.
    split; [by apply list_elem_of_In|].
    apply orb_true_iff. destruct H as [->|[rest ->]].
    + left. apply String.eqb_refl.
    + right. rewrite <- append_assoc. apply prefix_append.
Qed.

End MiddlewareFacts.

(** A path is public exactly when it is one of the public routes or lies
    below one (the route, a slash, anything).  With ["/"] among the
    routes, every path that starts with two slashes is public; a path
    that merely starts with the letters of a route, such as
    ["/login-as"], is not. *)
Theorem public_routes_are_subtrees :
  (∀ pathname : string,
      Middleware.isPublicRoute pathname = true
      ↔ ∃ route, route ∈ ["/"; "/login"; "/signup"; "/api/auth"]
          ∧ (pathname = route
             ∨ ∃ rest, pathname = String.append route (String.append "/" rest)))
  ∧ (∀ rest : string, Middleware.isPublicRoute (String.append "//" rest) = true)
  ∧ Middleware.isPublicRoute "/login-as" = false
  ∧ Middleware.isPublicRoute "/api/authorize" = false.
Proof.
  split; [exact isPublicRoute_true|]. split; [|split; reflexivity].
  intros rest. apply isPublicRoute_true. exists "/".
  split; [by left|]. right. by exists rest.
Qed.

(** The middleware lets a request through exactly when its path is
    public or the jar holds a cookie named [better-auth.session_token];
    the cookie's value is never looked at, so any value, the empty one
    included, passes.  Every other request is redirected to [/login] on
    the request's URL with the path as [callbackUrl]. *)
Theorem middleware_passes_iff :
  (∀ request : Middleware.Request,
      Middleware.middleware request = Middleware.Next
      ↔ Middleware.isPublicRoute (Middleware.pathname request) = true
        ∨ is_Some (Middleware.cookies request !! "better-auth.session_token"))
  ∧ (∀ (pathname url value : string) (jar : gmap string string),
        Middleware.middleware
          (Middleware.mkRequest pathname url
             (<["better-auth.session_token" := value]> jar))
        = Middleware.Next)
  ∧ (∀ request : Middleware.Request,
        Middleware.middleware request = Middleware.Next
        ∨ Middleware.middleware request
          = Middleware.Redirect
              (Middleware.mkURL "/login" (Middleware.url request)
                 [("callbackUrl", Middleware.pathname request)])).
Proof.
  split; [|split].
  - intros request. unfold Middleware.middleware.
    destruct (Middleware.isPublicRoute (Middleware.pathname request)); [naive_solver|].
    destruct (Middleware.cookies request !! "better-auth.session_token") eqn:H.
    + split; [|done]. intros _. right. by eexists.
    + split; [done|]. intros [?|[? ?]]; done.
  - intros pathname url value jar. unfold Middleware.middleware.
    cbn [Middleware.pathname Middleware.cookies].
    rewrite lookup_insert_eq. by destruct (Middleware.isPublicRoute pathname).
  - intros request. unfold Middleware.middleware.
    destruct (Middleware.isPublicRoute (Middleware.pathname request)); [by left|].
    destruct (Middleware.cookies request !! "better-auth.session_token");
      [by left|by right].
Qed.

(** The redirect cannot loop: whatever request the middleware redirects,
    a request for the path of the redirect target passes, with or
    without cookies. *)
Theorem middleware_redirect_target_passes (request follow : Middleware.Request)
    (target : Middleware.URL) :
  Middleware.middleware request = Middleware.Redirect target →
  Middleware.pathname follow = Middleware.path target →
  Middleware.middleware follow = Middleware.Next.
Proof.
  intros Hred Hpath. unfold Middleware.middleware in Hred.
  destruct (Middleware.isPublicRoute (Middleware.pathname request)); [done|].
  destruct (Middleware.cookies request !! "better-auth.session_token"); [done|].
  injection Hred as <-. cbn in Hpath.
  unfold Middleware.middleware. rewrite Hpath. reflexivity.
Qed.

Lemma middleware_redirect_target_passes_witness :
  Middleware.middleware (Middleware.mkRequest "/login" "https://firm.example/login" ∅)
  = Middleware.Next.
Proof.
  refine (middleware_redirect_target_passes
            (Middleware.mkRequest "/matters/7" "https://firm.example/matters/7" ∅)
            (Middleware.mkRequest "/login" "https://firm.example/login" ∅)
            (Middleware.mkURL "/login" "https://firm.example/matters/7"
               [("callbackUrl", "/matters/7")]) _ _);
    reflexivity.
Defined.

(** * The vault context sample *)

(** [getAuthenticatedVaultContext] throws exactly when there is no
    session.  Otherwise it returns the session's user and active
    organization and a role that is never empty; without a truthy
    active organization the member is not consulted and the role is
    ["member"].  That fallback is not a role of this repository: it is
    no key of [roles], it is not in [RoleHierarchy], and it fails
    [hasMinimumRole] against every role of the hierarchy. *)
Theorem vault_context_role :
  (∀ member, Vault.getAuthenticatedVaultContext None member
             = inl "Not authenticated")
  ∧ (∀ session member,
        ∃ ctx, Vault.getAuthenticatedVaultContext (Some session) member = inr ctx
               ∧ Vault.ctxUserId ctx = Vault.userId session
               ∧ Vault.organizationId ctx = Vault.activeOrganizationId session
               ∧ Vault.ctxRole ctx ≠ "")
  ∧ (∀ userId org member,
        (org = None ∨ org = Some "") →
        Vault.getAuthenticatedVaultContext
          (Some (Vault.mkSession userId org)) member
        = inr (Vault.mkContext userId org "member"))
  ∧ Permissions.roles !! "member" = None
  ∧ ("member" ∉ Roles.RoleHierarchy)
  ∧ (∀ required : string,
        required ∈ Roles.RoleHierarchy →
        Roles.hasMinimumRole "member" required = false).
Proof.
  split_and!.
  - done.
  - intros session member. eexists. split; [reflexivity|]. cbn.
    split_and!; [done..|]. by apply orElse_nonempty.
  - by intros userId org member [->| ->].
  - reflexivity.
  - apply (bool_decide_unpack _). vm_compute. exact I.
  - intros required Hin. unfold Roles.RoleHierarchy in Hin.
    each_member Hin; reflexivity.
Qed.

Lemma vault_context_role_witness :
  Vault.getAuthenticatedVaultContext
    (Some (Vault.mkSession "u9" None)) (Some (Vault.mkMember "partner"))
  = inr (Vault.mkContext "u9" None "member").
Proof.
  refine (proj1 (proj2 (proj2 vault_context_role)) "u9" None
            (Some (Vault.mkMember "partner")) _).
  by left.
Defined.
